(** * bankSim.cpp: accounts, the bank that owns them, and their properties

    The program keeps every amount of money in a C++ [double].  The model
    keeps them in Rocq's primitive [float], the same IEEE 754 binary64
    numbers with the same round-to-nearest-even operations, so that every
    comparison and every sum below is the one the compiled program makes
    (each operation rounded to binary64 on its own, as on x86-64).

    Classes become one record with the class of the object as a field and
    virtual calls a match on it; member functions thread the object and may
    throw; the bank is the vector of the accounts it owns, and a pointer to
    an account is the slot that owns it. *)

From Stdlib Require Import ZArith Lia Bool String Floats.
From stdpp Require Import base list.

Set Warnings "-inexact-float".
Local Open Scope string_scope.
Local Open Scope list_scope.

(** ** The comparisons of C++ on [double] *)

Module Double.

(** [x > y] and [x >= y] on doubles are [y < x] and [y <= x]; all four
    are false as soon as one side is a NaN. *)
Definition gtb (x y : float) : bool := (y <? x)%float.
Definition geb (x y : float) : bool := (y <=? x)%float.

Definition lt (x y : float) : Prop := (x <? y)%float = true.
Definition le (x y : float) : Prop := (x <=? y)%float = true.

(** An amount of money is a finite double: no infinity, no NaN. *)
Definition finite (x : float) : Prop := is_finite x = true.

End Double.

Infix "<" := Double.lt : float_scope.
Infix "<=" := Double.le : float_scope.
Notation "x > y" := (Double.lt y x) (only parsing) : float_scope.
Notation "x >= y" := (Double.le y x) (only parsing) : float_scope.

(** ** Exceptions *)

(** [class BankingException : public std::runtime_error]: one class, told
    apart by the message it carries. *)
Inductive BankingException : Type :=
  | Banking_error (what : string).

Definition NegativeInitialBalance : BankingException :=
  Banking_error "Initial balance cannot be negative".
Definition InvalidDeposit : BankingException :=
  Banking_error "Deposit amount must be positive".
Definition InvalidWithdrawal : BankingException :=
  Banking_error "Withdrawal amount must be positive".
(** The message ends with [std::to_string(MINIMUM_BALANCE)], which prints a
    double with six decimals. *)
Definition BelowMinimumBalance : BankingException :=
  Banking_error "Minimum initial balance for Savings is $100.000000".

(** The specification's [InvalidAmount]: either of the two amount errors. *)
Definition InvalidAmount (e : BankingException) : Prop :=
  e = InvalidDeposit \/ e = InvalidWithdrawal.

(** What a call gives back: a value, or a thrown exception. *)
Inductive outcome (A : Type) : Type :=
  | Returns (a : A)
  | Throws (e : BankingException).
Arguments Returns {A} a.
Arguments Throws {A} e.

(** ** Accounts *)

(** The two concrete classes; [BankAccount] itself is abstract. *)
Inductive AccountClass : Type := CheckingAccount | SavingsAccount.

Record BankAccount : Type := mkBankAccount {
  dynamic_type : AccountClass;
  accountNumber : string;
  accountHolderName : string;
  balance : float
}.

Definition set_balance (a : BankAccount) (b : float) : BankAccount :=
  {| dynamic_type := dynamic_type a;
     accountNumber := accountNumber a;
     accountHolderName := accountHolderName a;
     balance := b |}.

Definition MONTHLY_FEE : float := 10%float.
Definition OVERDRAFT_LIMIT : float := 100%float.
Definition INTEREST_RATE : float := 0.05%float.
Definition MINIMUM_BALANCE : float := 100%float.

(** A member function runs on the object it is called on: it gets the
    object, and gives back its outcome together with the object as the call
    left it.  An exception does not undo what was written before it. *)
Definition method (A : Type) : Type := BankAccount -> outcome A * BankAccount.

Definition ret {A} (x : A) : method A := fun a => (Returns x, a).
Definition throw {A} (e : BankingException) : method A := fun a => (Throws e, a).
Definition bind {A B} (m : method A) (k : A -> method B) : method B :=
  fun a => match m a with
           | (Returns x, a') => k x a'
           | (Throws e, a') => (Throws e, a')
           end.
Definition getBalance : method float := fun a => (Returns (balance a), a).
Definition putBalance (b : float) : method unit :=
  fun a => (Returns tt, set_balance a b).

Notation "'let!' x ':=' m 'in' k" := (bind m (fun x => k))
  (at level 10, x name, m at level 100, k at level 200).
Notation "'do!' m 'in' k" := (bind m (fun _ => k))
  (at level 10, m at level 100, k at level 200).

(** *** Constructors *)

(** [BankAccount::BankAccount]: the members are initialised, then the
    balance is checked.  A constructor that throws leaves no object. *)
Definition BankAccount_new (cls : AccountClass) (number name : string)
    (initialBalance : float) : outcome BankAccount :=
  let this := mkBankAccount cls number name initialBalance in
  if (initialBalance <? 0)%float then Throws NegativeInitialBalance
  else Returns this.

Definition CheckingAccount_new (number name : string) (initialBalance : float)
    : outcome BankAccount :=
  BankAccount_new CheckingAccount number name initialBalance.

(** [SavingsAccount::SavingsAccount]: the base constructor first, then the
    body with the minimum-balance check. *)
Definition SavingsAccount_new (number name : string) (initialBalance : float)
    : outcome BankAccount :=
  match BankAccount_new SavingsAccount number name initialBalance with
  | Throws e => Throws e
  | Returns this =>
      if (initialBalance <? MINIMUM_BALANCE)%float then Throws BelowMinimumBalance
      else Returns this
  end.

(** [std::make_unique<C>(number, name, initialBalance)] by class. *)
Definition make_account (cls : AccountClass) : string -> string -> float -> outcome BankAccount :=
  match cls with
  | CheckingAccount => CheckingAccount_new
  | SavingsAccount => SavingsAccount_new
  end.

(** *** Member functions *)

Definition BankAccount_deposit (amount : float) : method unit :=
  if (amount <=? 0)%float then throw InvalidDeposit
  else let! b := getBalance in putBalance (b + amount)%float.

Definition BankAccount_withdraw (amount : float) : method bool :=
  if (amount <=? 0)%float then throw InvalidWithdrawal
  else
    let! b := getBalance in
    if Double.gtb amount b then ret false
    else do! putBalance (b - amount)%float in ret true.

Definition CheckingAccount_withdraw (amount : float) : method bool :=
  if (amount <=? 0)%float then throw InvalidWithdrawal
  else
    let! b := getBalance in
    if Double.gtb amount (b + OVERDRAFT_LIMIT)%float then ret false
    else do! putBalance (b - amount)%float in ret true.

Definition CheckingAccount_applyMonthlyFee : method unit :=
  let! b := getBalance in
  if Double.geb b MONTHLY_FEE then putBalance (b - MONTHLY_FEE)%float
  else ret tt.

Definition SavingsAccount_applyMonthlyFee : method unit :=
  let! b := getBalance in putBalance (b + b * INTEREST_RATE)%float.

(** Virtual dispatch on the class of the object. *)
Definition deposit (amount : float) : method unit :=
  fun a => BankAccount_deposit amount a.

Definition withdraw (amount : float) : method bool :=
  fun a => match dynamic_type a with
           | CheckingAccount => CheckingAccount_withdraw amount a
           | SavingsAccount => BankAccount_withdraw amount a
           end.

Definition applyMonthlyFee : method unit :=
  fun a => match dynamic_type a with
           | CheckingAccount => CheckingAccount_applyMonthlyFee a
           | SavingsAccount => SavingsAccount_applyMonthlyFee a
           end.


Definition getAccountNumber (a : BankAccount) : string := accountNumber a.
Definition getAccountHolderName (a : BankAccount) : string := accountHolderName a.

(** *** What is written to [std::cout] *)

(** [Fixed2 x] is the double [x] written while the stream is in
    [std::fixed] with [std::setprecision(2)]; both settings stay on the
    stream once [BankAccount::displayAccountInfo] has set them. *)
Inductive item : Type :=
  | Text (s : string)
  | Fixed2 (x : float)
  | Endl.

Definition BankAccount_displayAccountInfo (a : BankAccount) : list item :=
  [Text "Account Number: "; Text (accountNumber a); Endl;
   Text "Account Holder: "; Text (accountHolderName a); Endl;
   Text "Balance: $"; Fixed2 (balance a); Endl].

Definition CheckingAccount_displayAccountInfo (a : BankAccount) : list item :=
  BankAccount_displayAccountInfo a ++
  [Text "Account Type: Checking"; Endl;
   Text "Monthly Fee: $"; Fixed2 MONTHLY_FEE; Endl].

Definition SavingsAccount_displayAccountInfo (a : BankAccount) : list item :=
  BankAccount_displayAccountInfo a ++
  [Text "Account Type: Savings"; Endl;
   Text "Interest Rate: "; Fixed2 (INTEREST_RATE * 100)%float; Text "%"; Endl].

Definition displayAccountInfo (a : BankAccount) : list item :=
  match dynamic_type a with
  | CheckingAccount => CheckingAccount_displayAccountInfo a
  | SavingsAccount => SavingsAccount_displayAccountInfo a
  end.

(** *** The calls that change an account *)

Inductive operation : Type :=
  | Deposit (amount : float)
  | Withdraw (amount : float)
  | ApplyMonthlyFee.

(** The account after the call, whether it returned or threw. *)
Definition perform (op : operation) (a : BankAccount) : BankAccount :=
  match op with
  | Deposit amount => snd (deposit amount a)
  | Withdraw amount => snd (withdraw amount a)
  | ApplyMonthlyFee => snd (applyMonthlyFee a)
  end.

(** The accounts a program can get to: built by a constructor that
    returned, then changed by any calls. *)
Inductive reachable : BankAccount -> Prop :=
  | reachable_new (cls : AccountClass) (number name : string)
      (initialBalance : float) (a : BankAccount) :
      make_account cls number name initialBalance = Returns a -> reachable a
  | reachable_perform (op : operation) (a : BankAccount) :
      reachable a -> reachable (perform op a).

(** ** The bank *)

(** [std::vector<std::unique_ptr<BankAccount>> accounts]: every slot of the
    vector owns one account, in the order the accounts were added. *)
Record Bank : Type := mkBank { accounts : list BankAccount }.

Definition empty_bank : Bank := mkBank [].

Definition addAccount (account : BankAccount) (bank : Bank) : Bank :=
  mkBank (accounts bank ++ [account]).

(** A [BankAccount*] that [findAccount] hands out points to the account
    owned by a slot of the vector: it is that slot's number.  [nullptr] is
    [None]. *)
Fixpoint findAccount_from (slot : nat) (l : list BankAccount) (number : string)
    : option nat :=
  match l with
  | [] => None
  | account :: rest =>
      if String.eqb (getAccountNumber account) number then Some slot
      else findAccount_from (S slot) rest number
  end.

Definition findAccount (bank : Bank) (number : string) : option nat :=
  findAccount_from 0 (accounts bank) number.

(** [i] is the first slot of [l] whose account has this number. *)
Definition first_match (l : list BankAccount) (number : string) (i : nat) : Prop :=
  (exists a, l !! i = Some a /\ accountNumber a = number) /\
  forall j b, j < i -> l !! j = Some b -> accountNumber b <> number.

(** Reading through the pointer reads the bank's own account. *)
Definition deref (bank : Bank) (p : nat) : option BankAccount :=
  accounts bank !! p.

(** [p->deposit(x)], [p->withdraw(x)], [p->applyMonthlyFee()]: the call
    runs on the account in the bank's slot.  (A pointer that is not into
    this bank has no meaning in C++; here it changes nothing.) *)
Definition perform_at (p : nat) (op : operation) (bank : Bank) : Bank :=
  mkBank (alter (perform op) p (accounts bank)).

(** [processMonthlyUpdates]: the loop goes through the vector from its
    first slot to its last and calls [applyMonthlyFee] on each account. *)
Fixpoint monthly_loop (slot todo : nat) (l : list BankAccount) : list BankAccount :=
  match todo with
  | 0 => l
  | S todo' => monthly_loop (S slot) todo' (alter (perform ApplyMonthlyFee) slot l)
  end.

Definition processMonthlyUpdates (bank : Bank) : Bank :=
  mkBank (monthly_loop 0 (length (accounts bank)) (accounts bank)).

Definition separator : list item := [Text "------------------------"; Endl].

Fixpoint display_loop (l : list BankAccount) : list item :=
  match l with
  | [] => []
  | account :: rest => displayAccountInfo account ++ separator ++ display_loop rest
  end.

Definition displayAllAccounts (bank : Bank) : list item :=
  display_loop (accounts bank).

(** What identifies an account: its number and its holder. *)
Definition identity (a : BankAccount) : string * string :=
  (accountNumber a, accountHolderName a).

(** ** Runs of the bank *)

(** One call on the bank: an account is added (one that a constructor
    returned, and that calls may have changed since), a member function is
    called through a pointer into the bank, or the monthly updates are
    processed. *)
Inductive bank_step : Bank -> Bank -> Prop :=
  | step_addAccount (account : BankAccount) (bank : Bank) :
      reachable account -> bank_step bank (addAccount account bank)
  | step_perform_at (p : nat) (op : operation) (bank : Bank) :
      is_Some (deref bank p) -> bank_step bank (perform_at p op bank)
  | step_processMonthlyUpdates (bank : Bank) :
      bank_step bank (processMonthlyUpdates bank).

(** Any number of calls, one after the other. *)
Inductive evolves (bank : Bank) : Bank -> Prop :=
  | evolves_refl : evolves bank bank
  | evolves_step (bank' bank'' : Bank) :
      evolves bank bank' -> bank_step bank' bank'' -> evolves bank bank''.

(** ** Classes of doubles, for the proofs about signs *)

Module DoubleClass.

(** Anything but a NaN. *)
Definition is_number (x : spec_float) : bool :=
  match x with S754_nan => false | _ => true end.

(** A zero of either sign, a positive number, plus infinity or a NaN:
    what [x < 0] is false on. *)
Definition not_negative (x : spec_float) : bool :=
  match x with
  | S754_zero _ | S754_nan => true
  | S754_infinity s | S754_finite s _ _ => negb s
  end.

(** A positive number, plus infinity or a NaN: what [x <= 0] is false on. *)
Definition not_le_zero (x : spec_float) : bool :=
  match x with
  | S754_zero _ => false
  | S754_nan => true
  | S754_infinity s | S754_finite s _ _ => negb s
  end.

End DoubleClass.

(** * Facts about doubles

    Proved from the specification of the primitive operations
    ([Prim2SF], [ltb_spec], [add_spec], ...). *)

Module DoubleOrder.
Import DoubleClass.

(** Swapping the sides of a comparison turns its answer around. *)
Lemma SFcompare_swap (x y : spec_float) :
  SFcompare y x = option_map CompOpp (SFcompare x y).
Proof.
  destruct x as [sx|sx| |sx mx ex], y as [sy|sy| |sy my ey]; simpl;
    try reflexivity; try (destruct sx; reflexivity);
    try (destruct sy; reflexivity);
    try (destruct sx, sy; reflexivity).
  destruct sx, sy; simpl; try reflexivity; f_equal;
    rewrite (Z.compare_antisym ex ey);
    destruct (ex ?= ey)%Z; simpl; try reflexivity;
    now rewrite !Pos.compare_cont_antisym.
Qed.

Lemma ltb_swap (x y : float) :
  (x <? y)%float = true -> (y <=? x)%float = false.
Proof.
  rewrite ltb_spec, leb_spec. unfold SFltb, SFleb.
  rewrite (SFcompare_swap (Prim2SF x) (Prim2SF y)).
  destruct (SFcompare (Prim2SF x) (Prim2SF y)) as [[]|]; simpl; congruence.
Qed.

Lemma leb_swap (x y : float) :
  (x <=? y)%float = true -> (y <? x)%float = false.
Proof.
  rewrite ltb_spec, leb_spec. unfold SFltb, SFleb.
  rewrite (SFcompare_swap (Prim2SF x) (Prim2SF y)).
  destruct (SFcompare (Prim2SF x) (Prim2SF y)) as [[]|]; simpl; congruence.
Qed.

Lemma SFcompare_numbers (x y : spec_float) :
  is_number x = true -> is_number y = true -> SFcompare x y <> None.
Proof.
  destruct x, y; simpl; congruence.
Qed.

Lemma SFcompare_refl (x : spec_float) :
  is_number x = true -> SFcompare x x = Some Eq.
Proof.
  destruct x as [s|s| |s m e]; simpl; try congruence; intros _.
  - destruct s; reflexivity.
  - rewrite Z.compare_refl, Pos.compare_cont_refl. destruct s; reflexivity.
Qed.

Lemma is_nan_spec (x : float) :
  is_nan x = negb (is_number (Prim2SF x)).
Proof.
  unfold is_nan. rewrite FloatAxioms.eqb_spec. unfold SFeqb.
  destruct (is_number (Prim2SF x)) eqn:E.
  - now rewrite (SFcompare_refl _ E).
  - destruct (Prim2SF x); simpl in *; congruence.
Qed.

Lemma ltb_false_leb (x y : float) :
  is_nan x = false -> is_nan y = false ->
  (x <? y)%float = false -> (y <=? x)%float = true.
Proof.
  rewrite !is_nan_spec, ltb_spec, leb_spec, !negb_false_iff.
  intros Hx Hy. unfold SFltb, SFleb.
  rewrite (SFcompare_swap (Prim2SF x) (Prim2SF y)).
  pose proof (SFcompare_numbers _ _ Hx Hy) as Hn.
  destruct (SFcompare (Prim2SF x) (Prim2SF y)) as [[]|]; simpl; congruence.
Qed.

Lemma ltb_irrefl (x : float) : (x <? x)%float = false.
Proof.
  rewrite ltb_spec. unfold SFltb.
  destruct (is_number (Prim2SF x)) eqn:E.
  - now rewrite (SFcompare_refl _ E).
  - destruct (Prim2SF x); simpl in *; congruence.
Qed.

Lemma ltb_number_l (x y : float) : (x <? y)%float = true -> is_nan x = false.
Proof.
  rewrite is_nan_spec, ltb_spec. unfold SFltb.
  destruct (Prim2SF x); simpl; congruence.
Qed.

Lemma ltb_number_r (x y : float) : (x <? y)%float = true -> is_nan y = false.
Proof.
  rewrite is_nan_spec, ltb_spec. unfold SFltb.
  destruct (Prim2SF x), (Prim2SF y); simpl; congruence.
Qed.

End DoubleOrder.

Module DoubleSign.
Import DoubleClass DoubleOrder.

Lemma SFltb_zero (x : spec_float) :
  SFltb x (S754_zero false) = negb (not_negative x).
Proof. destruct x as [s|s| |s m e]; try destruct s; reflexivity. Qed.

Lemma SFleb_zero (x : spec_float) :
  SFleb x (S754_zero false) = negb (not_le_zero x).
Proof. destruct x as [s|s| |s m e]; try destruct s; reflexivity. Qed.

Lemma ltb_zero (x : float) :
  (x <? 0)%float = negb (not_negative (Prim2SF x)).
Proof. rewrite ltb_spec. apply SFltb_zero. Qed.

Lemma leb_zero (x : float) :
  (x <=? 0)%float = negb (not_le_zero (Prim2SF x)).
Proof. rewrite leb_spec. apply SFleb_zero. Qed.

(** Rounding keeps the sign it is given. *)
Lemma binary_round_aux_sign (mx ex : Z) (lx : location) :
  not_negative (binary_round_aux prec emax false mx ex lx) = true.
Proof.
  unfold binary_round_aux.
  destruct (shr_fexp prec emax mx ex lx) as [mrs' e'].
  destruct (shr_fexp prec emax _ e' loc_Exact) as [mrs'' e''].
  destruct (shr_m mrs''); [reflexivity| |reflexivity].
  now destruct (e'' <=? emax - prec)%Z.
Qed.

Lemma binary_round_sign (m : positive) (e : Z) :
  not_negative (binary_round prec emax false m e) = true.
Proof.
  unfold binary_round.
  destruct (shl_align _ _ _) as [mz ez]. apply binary_round_aux_sign.
Qed.

Lemma binary_normalize_sign (m e : Z) :
  (0 <= m)%Z -> not_negative (binary_normalize prec emax m e false) = true.
Proof.
  destruct m as [|p|p]; intros Hm; [reflexivity| |lia].
  apply binary_round_sign.
Qed.

Lemma SFadd_sign (x y : spec_float) :
  not_negative x = true -> not_negative y = true ->
  not_negative (SF64add x y) = true.
Proof.
  destruct x as [sx|sx| |sx mx ex], y as [sy|sy| |sy my ey]; simpl;
    try reflexivity; try (destruct sx; simpl; congruence);
    try (destruct sy; simpl; congruence);
    try (destruct sx, sy; simpl; congruence).
  destruct sx, sy; simpl; try congruence. intros _ _.
  apply binary_round_sign.
Qed.

Lemma SFmul_sign (x y : spec_float) :
  not_negative x = true -> not_negative y = true ->
  not_negative (SF64mul x y) = true.
Proof.
  destruct x as [sx|sx| |sx mx ex], y as [sy|sy| |sy my ey]; simpl;
    try reflexivity; try (destruct sx; simpl; congruence);
    try (destruct sy; simpl; congruence);
    try (destruct sx, sy; simpl; congruence).
  destruct sx, sy; simpl; try congruence. intros _ _.
  apply binary_round_aux_sign.
Qed.

End DoubleSign.

Module DoubleSub.
Import DoubleClass DoubleOrder DoubleSign.
Local Open Scope Z_scope.

Lemma digits2_pos_upper (m : positive) :
  Z.pos m < 2 ^ Z.pos (digits2_pos m).
Proof.
  induction m as [m IH|m IH|]; simpl digits2_pos;
    rewrite ?Pos2Z.inj_succ, ?Z.pow_succ_r by lia; lia.
Qed.

Lemma digits2_pos_lower (m : positive) :
  2 ^ (Z.pos (digits2_pos m) - 1) <= Z.pos m.
Proof.
  induction m as [m IH|m IH|]; simpl digits2_pos;
    rewrite ?Pos2Z.inj_succ; try reflexivity;
    replace (Z.succ (Z.pos (digits2_pos m)) - 1)
      with (Z.succ (Z.pos (digits2_pos m) - 1)) by lia;
    rewrite Z.pow_succ_r by lia; lia.
Qed.

(** Aligning a mantissa on a smaller exponent multiplies it by the power
    of two in between. *)
Lemma shl_align_fst (m : positive) (e e' : Z) :
  e' <= e -> Z.pos (fst (shl_align m e e')) = Z.pos m * 2 ^ (e - e').
Proof.
  intros He. unfold shl_align.
  destruct (e' - e) as [|d|d] eqn:Hd; simpl fst.
  - replace (e - e') with 0 by lia. lia.
  - lia.
  - change (Pos.iter xO m d) with (shift_pos d m).
    rewrite shift_pos_correct, Z.pow_pos_fold.
    replace (e - e') with (Z.pos d) by lia. lia.
Qed.

Lemma valid_finite (s : bool) (m : positive) (e : Z) :
  valid_binary (S754_finite s m e) = true ->
  Z.max (Z.pos (digits2_pos m) + e - prec) emin = e.
Proof.
  simpl. unfold bounded, canonical_mantissa, fexp.
  rewrite andb_true_iff, Z.eqb_eq. tauto.
Qed.

(** Of two valid positive numbers, the one with the larger exponent is
    the larger one. *)
Lemma aligned_le (mx my : positive) (ex ey : Z) :
  valid_binary (S754_finite false mx ex) = true ->
  valid_binary (S754_finite false my ey) = true ->
  ey < ex ->
  Z.pos my <= Z.pos mx * 2 ^ (ex - ey).
Proof.
  intros Hx%valid_finite Hy%valid_finite Hlt.
  assert (Z.pos (digits2_pos mx) = prec) as Dx by lia.
  assert (Z.pos (digits2_pos my) <= prec) as Dy by lia.
  pose proof (digits2_pos_lower mx) as Lx. rewrite Dx in Lx.
  pose proof (digits2_pos_upper my) as Uy.
  assert (2 ^ Z.pos (digits2_pos my) <= 2 ^ prec)
    by (apply Z.pow_le_mono_r; lia).
  assert (2 ^ 1 <= 2 ^ (ex - ey)) by (apply Z.pow_le_mono_r; lia).
  change (2 ^ prec) with (2 * 2 ^ (prec - 1)) in *.
  change (2 ^ 1) with 2 in *. nia.
Qed.

Lemma SFsub_sign (x y : spec_float) :
  valid_binary x = true -> valid_binary y = true ->
  not_negative x = true -> not_le_zero y = true ->
  SFltb x y = false ->
  not_negative (SF64sub x y) = true.
Proof.
  unfold SFltb.
  destruct x as [sx|sx| |sx mx ex], y as [sy|sy| |sy my ey];
    try (simpl; congruence);
    try (destruct sx; simpl; congruence);
    try (destruct sy; simpl; congruence);
    try (destruct sx, sy; simpl; congruence).
  destruct sx, sy; try (simpl; congruence).
  intros Vx Vy _ _. unfold SFcompare, SF64sub, SFsub, cond_Zopp.
  destruct (ex ?= ey) eqn:He; try congruence; intros Hc;
    apply binary_normalize_sign.
  - apply Z.compare_eq in He. subst ey.
    rewrite Z.min_id, !shl_align_fst, Z.sub_diag by lia.
    assert (Pos.compare_cont Eq mx my <> Lt) as Hm
      by (destruct (Pos.compare_cont Eq mx my); congruence).
    change (Pos.compare_cont Eq mx my) with (mx ?= my)%positive in Hm.
    rewrite Pos.compare_lt_iff in Hm. lia.
  - apply Z.compare_gt_iff in He.
    rewrite Z.min_r, !shl_align_fst, Z.sub_diag by lia.
    pose proof (aligned_le mx my ex ey Vx Vy He). lia.
Qed.

(** A finite number minus itself is plus zero. *)
Lemma SFsub_diag (s : bool) (m : positive) (e : Z) :
  SF64sub (S754_finite s m e) (S754_finite s m e) = S754_zero false.
Proof.
  unfold SF64sub, SFsub. now rewrite Z.sub_diag.
Qed.

End DoubleSub.

Module DoubleNumber.
Import DoubleClass.
Local Open Scope Z_scope.

Lemma shr_1_nonneg (mrs : shr_record) :
  0 <= shr_m mrs -> 0 <= shr_m (shr_1 mrs).
Proof.
  destruct mrs as [m r s]. simpl.
  destruct m as [|[p|p|]|p]; simpl; lia.
Qed.

Lemma iter_shr_1_nonneg (p : positive) (mrs : shr_record) :
  0 <= shr_m mrs -> 0 <= shr_m (SpecFloat.iter_pos shr_1 p mrs).
Proof.
  revert mrs. induction p as [p IH|p IH|]; intros mrs H; simpl;
    auto using shr_1_nonneg.
Qed.

Lemma shr_fexp_nonneg (m e : Z) (l : location) :
  0 <= m -> 0 <= shr_m (fst (shr_fexp prec emax m e l)).
Proof.
  intros Hm. unfold shr_fexp, shr.
  assert (0 <= shr_m (shr_record_of_loc m l)) by (now destruct l as [|[]]).
  destruct (fexp prec emax (Zdigits2 m + e) - e); simpl; auto.
  now apply iter_shr_1_nonneg.
Qed.

Lemma round_nearest_even_nonneg (m : Z) (l : location) :
  0 <= m -> 0 <= round_nearest_even m l.
Proof.
  intros Hm. unfold round_nearest_even.
  destruct l as [|[]]; try destruct (Z.even m); lia.
Qed.

(** Rounding a natural number never gives a NaN. *)
Lemma binary_round_aux_number (s : bool) (mx ex : Z) (lx : location) :
  0 <= mx -> is_number (binary_round_aux prec emax s mx ex lx) = true.
Proof.
  intros Hm. unfold binary_round_aux.
  pose proof (shr_fexp_nonneg mx ex lx Hm) as H1.
  destruct (shr_fexp prec emax mx ex lx) as [mrs' e']. simpl in H1.
  pose proof (shr_fexp_nonneg _ e' loc_Exact
    (round_nearest_even_nonneg _ (loc_of_shr_record mrs') H1)) as H2.
  destruct (shr_fexp prec emax _ e' loc_Exact) as [mrs'' e'']. simpl in H2.
  destruct (shr_m mrs''); [reflexivity| |lia].
  now destruct (e'' <=? emax - prec).
Qed.

Lemma binary_normalize_number (m e : Z) (szero : bool) :
  is_number (binary_normalize prec emax m e szero) = true.
Proof.
  destruct m as [|p|p]; [reflexivity| |]; simpl; unfold binary_round;
    destruct (shl_align _ _ _) as [mz ez];
    now apply binary_round_aux_number.
Qed.

(** A number plus a finite number is a number. *)
Lemma SFadd_number (x : spec_float) (s : bool) (m : positive) (e : Z) :
  is_number x = true -> is_number (SF64add x (S754_finite s m e)) = true.
Proof.
  destruct x as [sx|sx| |sx mx ex]; try (simpl; congruence). intros _.
  apply binary_normalize_number.
Qed.

End DoubleNumber.

Module DoubleFacts.
Import DoubleClass DoubleOrder DoubleSign DoubleSub DoubleNumber.
Local Open Scope float_scope.

Lemma add_number (x y : float) (s : bool) (m : positive) (e : Z) :
  Prim2SF y = S754_finite s m e ->
  is_nan x = false -> is_nan (x + y) = false.
Proof.
  rewrite !is_nan_spec, add_spec, !negb_false_iff. intros ->.
  apply SFadd_number.
Qed.

Lemma finite_spec (x : float) :
  is_finite x = true ->
  match Prim2SF x with
  | S754_zero _ | S754_finite _ _ _ => True
  | _ => False
  end.
Proof.
  unfold is_finite, is_infinity.
  rewrite is_nan_spec, FloatAxioms.eqb_spec, abs_spec.
  destruct (Prim2SF x) as [s|s| |s m e]; simpl; auto; discriminate.
Qed.

Lemma sub_diag (x : float) : is_finite x = true -> x - x = 0.
Proof.
  intros Hx%finite_spec. apply Prim2SF_inj. rewrite sub_spec.
  change (Prim2SF 0) with (S754_zero false).
  destruct (Prim2SF x) as [s|s| |s m e]; try contradiction.
  - now destruct s.
  - apply SFsub_diag.
Qed.

Lemma add_not_negative (b a : float) :
  (b <? 0) = false -> (a <=? 0) = false -> (b + a <? 0) = false.
Proof.
  rewrite !ltb_zero, leb_zero, add_spec, !negb_false_iff.
  intros Hb Ha. apply SFadd_sign; [assumption|].
  destruct (Prim2SF a) as [s|s| |s m e]; simpl in *; congruence.
Qed.

Lemma sub_not_negative (b a : float) :
  (b <? 0) = false -> (a <=? 0) = false -> (b <? a) = false ->
  (b - a <? 0) = false.
Proof.
  rewrite !ltb_zero, leb_zero, sub_spec, !negb_false_iff, ltb_spec.
  intros Hb Ha Hlt.
  apply SFsub_sign; auto using Prim2SF_valid.
Qed.

Lemma interest_not_negative (b rate : float) :
  (b <? 0) = false -> (rate <? 0) = false -> (b + b * rate <? 0) = false.
Proof.
  rewrite !ltb_zero, add_spec, mul_spec, !negb_false_iff.
  intros Hb Hr. apply SFadd_sign; [assumption|]. now apply SFmul_sign.
Qed.

End DoubleFacts.

(** * Accounts *)

Import DoubleOrder DoubleFacts.

Ltac unfold_methods :=
  unfold withdraw, deposit, applyMonthlyFee,
    BankAccount_deposit, BankAccount_withdraw, CheckingAccount_withdraw,
    CheckingAccount_applyMonthlyFee, SavingsAccount_applyMonthlyFee,
    bind, ret, throw, getBalance, putBalance, Double.gtb, Double.geb.

Ltac unfold_order := unfold Double.lt, Double.le in *.

(** A positive amount passes the test [amount <= 0] of deposit and
    withdraw. *)
Lemma positive_amount (amount : float) :
  (0 < amount)%float -> (amount <=? 0)%float = false.
Proof. apply ltb_swap. Qed.

(** ** The end-to-end runs of the specification *)

Example john_doe :
  match CheckingAccount_new "CH001" "John Doe" 500 with
  | Returns a =>
      let a1 := snd (deposit 200 a) in
      let a2 := snd (withdraw 50 a1) in
      let a3 := snd (applyMonthlyFee a2) in
      (balance a1, fst (withdraw 50 a1), balance a2, balance a3)
      = (700%float, Returns true, 650%float, 640%float)
  | Throws _ => False
  end.
Proof. vm_compute. reflexivity. Qed.

Example jane_smith :
  match SavingsAccount_new "SV001" "Jane Smith" 1000 with
  | Returns a => balance (snd (applyMonthlyFee a)) = 1050%float
  | Throws _ => False
  end.
Proof. vm_compute. reflexivity. Qed.

Example savings_of_fifty (number name : string) :
  SavingsAccount_new number name 50 = Throws BelowMinimumBalance.
Proof. reflexivity. Qed.

(** ** Withdrawals *)

(** What [CheckingAccount::withdraw] does with a positive amount: refused
    when the amount is above the rounded sum [balance + OVERDRAFT_LIMIT],
    taken off the balance otherwise. *)
Lemma CheckingAccount_withdraw_guard (a : BankAccount) (amount : float) :
  dynamic_type a = CheckingAccount ->
  (0 < amount)%float ->
  withdraw amount a =
    if Double.gtb amount (balance a + OVERDRAFT_LIMIT)%float
    then (Returns false, a)
    else (Returns true, set_balance a (balance a - amount)%float).
Proof.
  intros Hc Hpos%positive_amount. unfold_methods. rewrite Hc, Hpos.
  now destruct (_ <? amount)%float.
Qed.

(** When the balance is a number, the withdrawal goes through exactly when
    [amount <= balance + OVERDRAFT_LIMIT], the sum being the rounded one. *)
Lemma CheckingAccount_withdraw_iff (a : BankAccount) (amount : float) :
  dynamic_type a = CheckingAccount ->
  (0 < amount)%float ->
  is_nan (balance a) = false ->
  fst (withdraw amount a) = Returns true <->
  (amount <= balance a + OVERDRAFT_LIMIT)%float.
Proof.
  intros Hc Hpos Hb. rewrite (CheckingAccount_withdraw_guard a amount Hc Hpos).
  unfold Double.gtb. unfold_order.
  destruct (balance a + OVERDRAFT_LIMIT <? amount)%float eqn:E; simpl.
  - apply ltb_swap in E. rewrite E. split; congruence.
  - split; [intros _|reflexivity].
    apply ltb_false_leb; [|eauto using ltb_number_r|assumption].
    now apply (add_number _ OVERDRAFT_LIMIT false 7036874417766400 (-46)).
Qed.

(** C1, at the input where it fails: a Checking account with balance 28.02
    accepts the withdrawal of 128.02, because the sum [28.02 + 100.0] is
    rounded up to the double 128.02, and is left with a balance below
    [-OVERDRAFT_LIMIT].  The same happens with whole amounts: with balance
    36028797018963976 the sum with 100 is halfway between two doubles and
    is rounded up to 36028797018964080, which can then be withdrawn and
    leaves -104. *)
Theorem checking_withdraw_below_overdraft_limit :
  let a := mkBankAccount CheckingAccount "CH001" "John Doe" 28.02 in
  let b := mkBankAccount CheckingAccount "CH001" "John Doe" 36028797018963976 in
  CheckingAccount_new "CH001" "John Doe" 28.02 = Returns a /\
  withdraw 128.02 a = (Returns true, set_balance a (-100.00000000000001)) /\
  (-100.00000000000001 < - OVERDRAFT_LIMIT)%float /\
  CheckingAccount_new "CH001" "John Doe" 36028797018963976 = Returns b /\
  (balance b + OVERDRAFT_LIMIT = 36028797018964080)%float /\
  withdraw 36028797018964080 b = (Returns true, set_balance b (-104)) /\
  (-104 < - OVERDRAFT_LIMIT)%float.
Proof. vm_compute. repeat split; reflexivity. Qed.

(** C2: on a Savings account, which keeps [BankAccount::withdraw], a
    positive amount above the balance is refused and the account is left
    as it was; any other positive amount is taken off the balance and the
    call returns true; taking out the whole of a finite balance leaves 0. *)
Theorem savings_withdraw (a : BankAccount) (amount : float) :
  dynamic_type a = SavingsAccount ->
  (0 < amount)%float ->
  ((amount > balance a)%float -> withdraw amount a = (Returns false, a)) /\
  (~ (amount > balance a)%float ->
     withdraw amount a = (Returns true, set_balance a (balance a - amount)%float)) /\
  (amount = balance a -> Double.finite (balance a) ->
     withdraw amount a = (Returns true, set_balance a 0%float)).
Proof.
  intros Hs Hpos%positive_amount. unfold_methods. unfold_order.
  rewrite Hs, Hpos. repeat split.
  - now intros ->.
  - intros H. now destruct (_ <? amount)%float.
  - intros -> Hfin. now rewrite ltb_irrefl, sub_diag.
Qed.

Lemma savings_withdraw_witness :
  let a := mkBankAccount SavingsAccount "SV001" "Jane Smith" 1000 in
  withdraw 1200 a = (Returns false, a) /\
  withdraw 250 a = (Returns true, set_balance a 750) /\
  withdraw 1000 a = (Returns true, set_balance a 0).
Proof.
  intros a. split; [|split].
  - apply (savings_withdraw a 1200); reflexivity.
  - apply (savings_withdraw a 250); [reflexivity|reflexivity|].
    unfold Double.lt. simpl. discriminate.
  - apply (savings_withdraw a 1000); reflexivity.
Defined.

(** ** The monthly update *)

(** C3: [applyMonthlyFee] on a Checking account takes [MONTHLY_FEE] (10.00)
    off the balance when [balance >= MONTHLY_FEE], and leaves the account
    as it was when [balance < MONTHLY_FEE]; whatever the balance, the new
    one is the old one or the old one minus the whole fee. *)
Theorem checking_monthly_fee (a : BankAccount) :
  dynamic_type a = CheckingAccount ->
  MONTHLY_FEE = 10%float /\
  ((balance a >= MONTHLY_FEE)%float ->
     applyMonthlyFee a = (Returns tt, set_balance a (balance a - MONTHLY_FEE)%float)) /\
  ((balance a < MONTHLY_FEE)%float -> applyMonthlyFee a = (Returns tt, a)) /\
  (snd (applyMonthlyFee a) = a \/
   snd (applyMonthlyFee a) = set_balance a (balance a - MONTHLY_FEE)%float).
Proof.
  intros Hc. unfold_methods. unfold_order. rewrite Hc.
  split; [reflexivity|]. repeat split.
  - now intros ->.
  - now intros ->%ltb_swap.
  - destruct (MONTHLY_FEE <=? balance a)%float; simpl; auto.
Qed.

Lemma checking_monthly_fee_witness :
  let rich := mkBankAccount CheckingAccount "CH001" "John Doe" 650 in
  let poor := mkBankAccount CheckingAccount "CH002" "John Doe" 9.99 in
  applyMonthlyFee rich = (Returns tt, set_balance rich 640) /\
  applyMonthlyFee poor = (Returns tt, poor).
Proof.
  intros rich poor. split.
  - apply (checking_monthly_fee rich); reflexivity.
  - apply (checking_monthly_fee poor); reflexivity.
Defined.

(** C4: [applyMonthlyFee] on a Savings account sets the balance to
    [balance + balance * INTEREST_RATE], with [INTEREST_RATE] the double
    0.05, whatever the balance is. *)
Theorem savings_monthly_interest (a : BankAccount) :
  dynamic_type a = SavingsAccount ->
  INTEREST_RATE = 0.05%float /\
  applyMonthlyFee a =
    (Returns tt, set_balance a (balance a + balance a * INTEREST_RATE)%float).
Proof.
  intros Hs. unfold_methods. now rewrite Hs.
Qed.

Lemma savings_monthly_interest_witness :
  let a := mkBankAccount SavingsAccount "SV001" "Jane Smith" 1000 in
  applyMonthlyFee a = (Returns tt, set_balance a 1050).
Proof.
  intros a. apply (savings_monthly_interest a). reflexivity.
Defined.

(** ** Amounts that are not positive *)

(** C5: on an account of either class, [deposit] and [withdraw] of an
    amount [<= 0] throw the invalid-amount exception and leave the account
    (class, number, holder, balance) as it was; [deposit] of an amount
    [> 0] returns and adds the amount to the balance. *)
Theorem invalid_amount_atomic (a : BankAccount) (amount : float) :
  ((amount <= 0)%float ->
     deposit amount a = (Throws InvalidDeposit, a) /\
     withdraw amount a = (Throws InvalidWithdrawal, a) /\
     InvalidAmount InvalidDeposit /\ InvalidAmount InvalidWithdrawal) /\
  ((amount > 0)%float ->
     deposit amount a = (Returns tt, set_balance a (balance a + amount)%float)).
Proof.
  unfold_methods. unfold_order. unfold InvalidAmount. split.
  - intros ->. destruct (dynamic_type a); auto.
  - now intros ->%ltb_swap.
Qed.

Lemma invalid_amount_atomic_witness :
  let a := mkBankAccount CheckingAccount "CH001" "John Doe" 500 in
  let s := mkBankAccount SavingsAccount "SV001" "Jane Smith" 1000 in
  deposit (-5) a = (Throws InvalidDeposit, a) /\
  withdraw 0 s = (Throws InvalidWithdrawal, s) /\
  deposit 200 a = (Returns tt, set_balance a 700).
Proof.
  intros a s. split; [|split].
  - apply (invalid_amount_atomic a (-5)). reflexivity.
  - apply (invalid_amount_atomic s 0). reflexivity.
  - apply (invalid_amount_atomic a 200). reflexivity.
Defined.

(** ** Construction *)

(** C6: a constructor of either class called with an initial balance
    [< 0] throws the negative-balance exception; the Savings constructor
    called with a balance that is not negative but [< MINIMUM_BALANCE]
    (100.00) throws the minimum-balance exception; in every other case the
    constructor returns the account with the given number, holder and
    balance.  The first part of the statement gives the three cases as one
    list, read from the top. *)
Theorem construction_validation (cls : AccountClass) (number name : string)
    (initialBalance : float) :
  MINIMUM_BALANCE = 100%float /\
  make_account cls number name initialBalance =
    (if (initialBalance <? 0)%float then Throws NegativeInitialBalance
     else if match cls with
             | SavingsAccount => (initialBalance <? MINIMUM_BALANCE)%float
             | CheckingAccount => false
             end
     then Throws BelowMinimumBalance
     else Returns (mkBankAccount cls number name initialBalance)) /\
  ((initialBalance < 0)%float ->
     make_account cls number name initialBalance = Throws NegativeInitialBalance) /\
  (cls = SavingsAccount ->
   ~ (initialBalance < 0)%float -> (initialBalance < MINIMUM_BALANCE)%float ->
     make_account cls number name initialBalance = Throws BelowMinimumBalance) /\
  (~ (initialBalance < 0)%float ->
   ~ (cls = SavingsAccount /\ (initialBalance < MINIMUM_BALANCE)%float) ->
     make_account cls number name initialBalance
     = Returns (mkBankAccount cls number name initialBalance)).
Proof.
  split; [reflexivity|]. unfold_order.
  destruct cls;
    unfold make_account, CheckingAccount_new, SavingsAccount_new, BankAccount_new;
    (split; [now destruct (initialBalance <? 0)%float|]); repeat split.
  - now intros ->.
  - discriminate.
  - intros H0 _. now destruct (initialBalance <? 0)%float.
  - now intros ->.
  - intros _ H0 ->. now destruct (initialBalance <? 0)%float.
  - intros H0 H1. destruct (initialBalance <? 0)%float; [congruence|].
    destruct (initialBalance <? MINIMUM_BALANCE)%float; [|reflexivity].
    now destruct H1.
Qed.

Lemma construction_validation_witness :
  make_account CheckingAccount "CH001" "John Doe" (-1) = Throws NegativeInitialBalance /\
  make_account SavingsAccount "SV001" "Jane Smith" (-1) = Throws NegativeInitialBalance /\
  make_account SavingsAccount "SV001" "Jane Smith" 50 = Throws BelowMinimumBalance /\
  make_account SavingsAccount "SV001" "Jane Smith" 1000
  = Returns (mkBankAccount SavingsAccount "SV001" "Jane Smith" 1000) /\
  make_account CheckingAccount "CH001" "John Doe" 50
  = Returns (mkBankAccount CheckingAccount "CH001" "John Doe" 50).
Proof.
  split; [|split; [|split; [|split]]].
  - apply (construction_validation CheckingAccount). reflexivity.
  - apply (construction_validation SavingsAccount). reflexivity.
  - apply (construction_validation SavingsAccount);
      [reflexivity|discriminate|reflexivity].
  - apply (construction_validation SavingsAccount);
      [discriminate|intros [_ H]; discriminate H].
  - apply (construction_validation CheckingAccount);
      [discriminate|intros [H _]; discriminate H].
Defined.

(** C10: the Savings constructor runs the base constructor first, so with
    a negative initial balance it throws the negative-balance exception,
    which is not the minimum-balance one; it throws the minimum-balance
    exception exactly for the initial balances in [0, MINIMUM_BALANCE). *)
Theorem savings_validation_order (number name : string) (initialBalance : float) :
  ((initialBalance < 0)%float ->
     SavingsAccount_new number name initialBalance = Throws NegativeInitialBalance /\
     SavingsAccount_new number name initialBalance <> Throws BelowMinimumBalance) /\
  (SavingsAccount_new number name initialBalance = Throws BelowMinimumBalance <->
     (0 <= initialBalance)%float /\ (initialBalance < MINIMUM_BALANCE)%float).
Proof.
  unfold SavingsAccount_new, BankAccount_new. unfold_order. split.
  - intros ->. split; [reflexivity|discriminate].
  - destruct (initialBalance <? 0)%float eqn:E0.
    + split; [discriminate|]. intros [H%leb_swap _]. congruence.
    + destruct (initialBalance <? MINIMUM_BALANCE)%float eqn:E1.
      * split; [intros _|reflexivity]. split; [|reflexivity].
        apply ltb_false_leb; eauto using ltb_number_l.
      * split; [discriminate|]. intros [_ H]. discriminate H.
Qed.

Lemma savings_validation_order_witness :
  SavingsAccount_new "SV001" "Jane Smith" (-1) = Throws NegativeInitialBalance /\
  SavingsAccount_new "SV001" "Jane Smith" 0 = Throws BelowMinimumBalance /\
  SavingsAccount_new "SV001" "Jane Smith" 99.99 = Throws BelowMinimumBalance.
Proof.
  split; [|split].
  - apply (savings_validation_order "SV001" "Jane Smith" (-1)). reflexivity.
  - apply (savings_validation_order "SV001" "Jane Smith" 0).
    split; reflexivity.
  - apply (savings_validation_order "SV001" "Jane Smith" 99.99).
    split; reflexivity.
Defined.

(** ** What no call changes, and what the calls keep *)

Lemma perform_class (op : operation) (a : BankAccount) :
  dynamic_type (perform op a) = dynamic_type a.
Proof.
  destruct op as [amount|amount|]; unfold perform; unfold_methods;
    destruct (dynamic_type a) eqn:Hc;
    repeat match goal with
           | |- context [if ?c then _ else _] => destruct c
           end; simpl; auto.
Qed.

Lemma perform_identity (op : operation) (a : BankAccount) :
  identity (perform op a) = identity a.
Proof.
  destruct op as [amount|amount|]; unfold perform; unfold_methods;
    destruct (dynamic_type a) eqn:Hc;
    repeat match goal with
           | |- context [if ?c then _ else _] => destruct c
           end; reflexivity.
Qed.

Lemma make_account_fields (cls : AccountClass) (number name : string)
    (initialBalance : float) (a : BankAccount) :
  make_account cls number name initialBalance = Returns a ->
  a = mkBankAccount cls number name initialBalance /\
  (initialBalance <? 0)%float = false.
Proof.
  destruct cls;
    unfold make_account, CheckingAccount_new, SavingsAccount_new, BankAccount_new;
    destruct (initialBalance <? 0)%float; try discriminate;
    try destruct (initialBalance <? MINIMUM_BALANCE)%float; try discriminate;
    intros [= <-]; auto.
Qed.

(** The Savings half of the balance invariant holds on the doubles: no
    account reached from a Savings constructor has a balance [< 0]. *)
Lemma savings_balance_never_negative (a : BankAccount) :
  reachable a -> dynamic_type a = SavingsAccount ->
  (balance a <? 0)%float = false.
Proof.
  induction 1 as [cls number name initialBalance a Hnew|op a Hr IH].
  - apply make_account_fields in Hnew as [-> H0]. auto.
  - rewrite perform_class. intros Hs. specialize (IH Hs).
    destruct op as [amount|amount|]; unfold perform; unfold_methods; rewrite ?Hs.
    + destruct (amount <=? 0)%float eqn:Ea; simpl; auto using add_not_negative.
    + destruct (amount <=? 0)%float eqn:Ea; simpl; [assumption|].
      destruct (balance a <? amount)%float eqn:Eb; simpl;
        auto using sub_not_negative.
    + simpl. now apply interest_not_negative.
Qed.

(** C7, at the input where it fails: the Checking account opened with 28.02
    and asked for 128.02 is an account a program can reach, and its balance
    is below [-OVERDRAFT_LIMIT].  ([savings_balance_never_negative] above
    proves the Savings half of the invariant.) *)
Theorem checking_invariant_broken :
  let a := mkBankAccount CheckingAccount "CH001" "John Doe" 28.02 in
  make_account CheckingAccount "CH001" "John Doe" 28.02 = Returns a /\
  reachable (perform (Withdraw 128.02) a) /\
  dynamic_type (perform (Withdraw 128.02) a) = CheckingAccount /\
  balance (perform (Withdraw 128.02) a) = (-100.00000000000001)%float /\
  (balance (perform (Withdraw 128.02) a) < - OVERDRAFT_LIMIT)%float.
Proof.
  intros a. split; [reflexivity|]. split; [|now vm_compute].
  apply reachable_perform.
  now apply (reachable_new CheckingAccount "CH001" "John Doe" 28.02).
Qed.

(** * The bank *)

Section Ledger.

Implicit Types (bank : Bank) (l : list BankAccount) (number : string).
Implicit Types (slot p q i j k : nat) (a b : BankAccount).

(** ** [findAccount] *)

Lemma first_match_head a l number :
  accountNumber a = number -> forall i, first_match (a :: l) number i <-> i = 0.
Proof.
  intros Ha i. split.
  - intros [_ Hfirst]. destruct i as [|i]; [reflexivity|].
    destruct (Hfirst 0 a); [lia|reflexivity|assumption].
  - intros ->. split; [now exists a|]. intros j b Hj. lia.
Qed.

Lemma first_match_tail a l number :
  accountNumber a <> number ->
  forall i, first_match (a :: l) number i <->
            exists i', i = S i' /\ first_match l number i'.
Proof.
  intros Ha i. split.
  - intros [[b [Hb Hn]] Hfirst]. destruct i as [|i].
    + simpl in Hb. congruence.
    + exists i. split; [reflexivity|]. split; [now exists b|].
      intros j c Hj Hc. apply (Hfirst (S j) c); [lia|assumption].
  - intros [i' [-> [[b [Hb Hn]] Hfirst]]]. split; [now exists b|].
    intros [|j] c Hj Hc.
    + simpl in Hc. congruence.
    + apply (Hfirst j c); [lia|assumption].
Qed.

Lemma findAccount_from_Some slot l number p :
  findAccount_from slot l number = Some p <->
  exists i, p = slot + i /\ first_match l number i.
Proof.
  revert slot. induction l as [|a l IH]; intros slot; simpl.
  - split; [discriminate|]. intros [i [_ [[b [Hb _]] _]]]. discriminate Hb.
  - unfold getAccountNumber. destruct (String.eqb_spec (accountNumber a) number) as [Ha|Ha].
    + split.
      * intros [= <-]. exists 0. split; [lia|]. now apply first_match_head.
      * intros [i [-> Hi]]. apply (first_match_head a l number Ha) in Hi.
        subst i. f_equal. lia.
    + rewrite IH. split.
      * intros [i [-> Hi]]. exists (S i). split; [lia|].
        apply first_match_tail; eauto.
      * intros [i [-> Hi]].
        apply (first_match_tail a l number Ha) in Hi as [i' [-> Hi']].
        exists i'. split; [lia|assumption].
Qed.

Lemma findAccount_from_None slot l number :
  findAccount_from slot l number = None <->
  forall a, elem_of a l -> accountNumber a <> number.
Proof.
  revert slot. induction l as [|a l IH]; intros slot; simpl.
  - split; [|reflexivity]. intros _ a Ha. inversion Ha.
  - unfold getAccountNumber. destruct (String.eqb_spec (accountNumber a) number) as [Ha|Ha].
    + split; [discriminate|]. intros H. destruct (H a); [left|assumption].
    + rewrite IH. split.
      * intros H b [->|Hb]%elem_of_cons; auto.
      * intros H b Hb. apply H. now right.
Qed.

(** The search looks at the account numbers only. *)
Lemma findAccount_from_numbers slot l l' number :
  accountNumber <$> l = accountNumber <$> l' ->
  findAccount_from slot l number = findAccount_from slot l' number.
Proof.
  revert slot l'. induction l as [|a l IH]; intros slot [|a' l'] H;
    try discriminate; [reflexivity|].
  injection H as Ha Hl. simpl. unfold getAccountNumber. rewrite Ha.
  destruct (String.eqb _ _); [reflexivity|]. now apply IH.
Qed.

(** ** Calls through a pointer *)

Lemma alter_middle (f : BankAccount -> BankAccount) l p a :
  l !! p = Some a -> alter f p l = take p l ++ f a :: drop (S p) l.
Proof.
  revert p. induction l as [|b l IH]; intros [|p] H; try discriminate.
  - injection H as ->. reflexivity.
  - simpl in *. f_equal. now apply IH.
Qed.

Lemma identity_alter op p l :
  identity <$> alter (perform op) p l = identity <$> l.
Proof.
  rewrite (list_fmap_alter identity (perform op) id).
  - revert p. induction (identity <$> l) as [|x xs IH]; intros [|p];
      simpl; try reflexivity. f_equal. apply IH.
  - apply Forall_forall. intros a _. apply perform_identity.
Qed.

Lemma identity_numbers l l' :
  identity <$> l = identity <$> l' -> accountNumber <$> l = accountNumber <$> l'.
Proof.
  intros H. apply (f_equal (fmap fst)) in H.
  now rewrite <- !list_fmap_compose in H.
Qed.

Lemma display_loop_app l l' :
  display_loop (l ++ l') = display_loop l ++ display_loop l'.
Proof.
  induction l as [|a l IH]; simpl; [reflexivity|].
  now rewrite IH, <- !app_assoc.
Qed.

(** ** [processMonthlyUpdates] *)

(** The loop, [todo] accounts further: the accounts in the slots it went
    through have had their monthly update, and no other has. *)
Lemma monthly_loop_lookup todo slot l i :
  monthly_loop slot todo l !! i =
    if decide (slot <= i < slot + todo)
    then perform ApplyMonthlyFee <$> l !! i
    else l !! i.
Proof.
  revert slot l. induction todo as [|todo IH]; intros slot l; simpl.
  - destruct (decide _); [lia|reflexivity].
  - rewrite IH. destruct (decide (slot = i)) as [->|Hne].
    + rewrite list_lookup_alter_eq.
      destruct (decide _); [lia|]. destruct (decide _); [reflexivity|lia].
    + rewrite list_lookup_alter_ne by assumption.
      repeat destruct (decide _); try reflexivity; lia.
Qed.

Lemma monthly_loop_all l :
  monthly_loop 0 (length l) l = perform ApplyMonthlyFee <$> l.
Proof.
  apply list_eq. intros i.
  rewrite monthly_loop_lookup, list_lookup_fmap.
  destruct (decide _) as [|Hi]; [reflexivity|].
  rewrite lookup_ge_None_2 by lia. reflexivity.
Qed.

End Ledger.

(** C8: [findAccount] returns the pointer to the first account, in the
    order the accounts were added, whose number is the one asked for, and
    the null pointer exactly when no account of the bank has that number.
    The pointer points into the bank: after a call through it, the bank's
    own slot holds the changed account, [findAccount] returns the same
    pointer (for this and for every other number the answer is unchanged),
    every other slot is as before, and [displayAllAccounts] shows the
    changed account in its place. *)
Theorem findAccount_first_and_aliased (bank : Bank) (number : string) :
  (forall p, findAccount bank number = Some p <->
             first_match (accounts bank) number p) /\
  (findAccount bank number = None <->
     forall a, elem_of a (accounts bank) -> accountNumber a <> number) /\
  (forall p op, findAccount bank number = Some p ->
     let bank' := perform_at p op bank in
     findAccount bank' number = Some p /\
     (forall number', findAccount bank' number' = findAccount bank number') /\
     deref bank' p = perform op <$> deref bank p /\
     (forall q, q <> p -> deref bank' q = deref bank q) /\
     exists a, deref bank p = Some a /\
       displayAllAccounts bank' =
         display_loop (take p (accounts bank)) ++
         displayAccountInfo (perform op a) ++ separator ++
         display_loop (drop (S p) (accounts bank))).
Proof.
  unfold findAccount. split; [|split].
  - intros p. rewrite findAccount_from_Some. split.
    + now intros [i [-> Hi]].
    + intros Hp. now exists p.
  - apply findAccount_from_None.
  - intros p op Hp. cbv zeta.
    assert (forall number',
              findAccount_from 0 (accounts (perform_at p op bank)) number'
              = findAccount_from 0 (accounts bank) number') as Hsame.
    { intros number'. apply findAccount_from_numbers, identity_numbers.
      apply identity_alter. }
    apply findAccount_from_Some in Hp as Hfirst.
    destruct Hfirst as [i [-> [[a [Ha Hn]] _]]]. simpl in Ha.
    unfold deref, displayAllAccounts. simpl accounts.
    repeat split.
    + now rewrite Hsame.
    + exact Hsame.
    + apply list_lookup_alter_eq.
    + intros q Hq. now apply list_lookup_alter_ne.
    + exists a. split; [assumption|].
      rewrite (alter_middle _ _ _ _ Ha), display_loop_app. reflexivity.
Qed.

(** The run of [main]: the two accounts are added, John's account is found
    and used through the pointer, the monthly updates are run, and the
    report shows 640.00 and 1050.00. *)
Example main_run :
  match CheckingAccount_new "CH001" "John Doe" 500,
        SavingsAccount_new "SV001" "Jane Smith" 1000 with
  | Returns john, Returns jane =>
      let myBank := addAccount jane (addAccount john empty_bank) in
      match findAccount myBank "CH001" with
      | Some johnAccount =>
          let myBank := perform_at johnAccount (Deposit 200) myBank in
          let myBank := perform_at johnAccount (Withdraw 50) myBank in
          let myBank := processMonthlyUpdates myBank in
          johnAccount = 0 /\
          balance <$> accounts myBank = [640%float; 1050%float] /\
          displayAllAccounts myBank =
            [Text "Account Number: "; Text "CH001"; Endl;
             Text "Account Holder: "; Text "John Doe"; Endl;
             Text "Balance: $"; Fixed2 640; Endl;
             Text "Account Type: Checking"; Endl;
             Text "Monthly Fee: $"; Fixed2 10; Endl;
             Text "------------------------"; Endl;
             Text "Account Number: "; Text "SV001"; Endl;
             Text "Account Holder: "; Text "Jane Smith"; Endl;
             Text "Balance: $"; Fixed2 1050; Endl;
             Text "Account Type: Savings"; Endl;
             Text "Interest Rate: "; Fixed2 5; Text "%"; Endl;
             Text "------------------------"; Endl]
      | None => False
      end
  | _, _ => False
  end.
Proof. vm_compute. repeat split. Qed.

(** The bank does not ask for distinct numbers: of two accounts with the
    same number, [findAccount] gives the one added first. *)
Example findAccount_duplicate :
  let first := mkBankAccount CheckingAccount "X1" "Ann" 10 in
  let second := mkBankAccount SavingsAccount "X1" "Bob" 200 in
  let bank := addAccount second (addAccount first empty_bank) in
  findAccount bank "X1" = Some 0 /\ deref bank 0 = Some first /\
  findAccount bank "X2" = None.
Proof. vm_compute. repeat split. Qed.

(** C9: [addAccount] puts the new account after the accounts of the bank
    and leaves these as they were; [processMonthlyUpdates] goes through the
    slots from the first to the last, gives every account its own
    [applyMonthlyFee], and keeps the number of accounts and their order;
    no call on an account or on the bank changes the number or the holder
    of an account. *)
Theorem ledger_frame (bank : Bank) :
  (forall account,
     accounts (addAccount account bank) = accounts bank ++ [account] /\
     (forall i a, deref bank i = Some a ->
                  deref (addAccount account bank) i = Some a) /\
     deref (addAccount account bank) (length (accounts bank)) = Some account /\
     length (accounts (addAccount account bank)) = S (length (accounts bank))) /\
  (accounts (processMonthlyUpdates bank)
     = perform ApplyMonthlyFee <$> accounts bank /\
   (forall done i,
      monthly_loop 0 done (accounts bank) !! i =
        if decide (i < done) then perform ApplyMonthlyFee <$> accounts bank !! i
        else accounts bank !! i) /\
   (forall i, deref (processMonthlyUpdates bank) i
              = (fun a => snd (applyMonthlyFee a)) <$> deref bank i) /\
   length (accounts (processMonthlyUpdates bank)) = length (accounts bank) /\
   identity <$> accounts (processMonthlyUpdates bank)
     = identity <$> accounts bank) /\
  ((forall op a, accountNumber (perform op a) = accountNumber a /\
                 accountHolderName (perform op a) = accountHolderName a) /\
   (forall p op, identity <$> accounts (perform_at p op bank)
                 = identity <$> accounts bank) /\
   (forall account, identity <$> accounts (addAccount account bank)
                    = (identity <$> accounts bank) ++ [identity account])).
Proof.
  unfold deref, processMonthlyUpdates, addAccount, perform_at. simpl accounts.
  split; [|split].
  - intros account. split; [reflexivity|]. split; [|split].
    + intros i a Hi. now apply lookup_app_l_Some.
    + rewrite lookup_app_r by lia. now rewrite Nat.sub_diag.
    + rewrite length_app. simpl. lia.
  - rewrite monthly_loop_all. split; [reflexivity|]. split; [|split; [|split]].
    + intros done i. rewrite monthly_loop_lookup.
      destruct (decide (0 <= i < 0 + done)), (decide (i < done));
        try reflexivity; lia.
    + intros i. apply list_lookup_fmap.
    + apply length_fmap.
    + rewrite <- list_fmap_compose. apply list_fmap_ext.
      intros i a _. apply perform_identity.
  - split; [|split].
    + intros op a. pose proof (perform_identity op a) as H.
      unfold identity in H. now injection H.
    + intros p op. apply identity_alter.
    + intros account. now rewrite fmap_app.
Qed.

Lemma findAccount_first_and_aliased_witness :
  let john := mkBankAccount CheckingAccount "CH001" "John Doe" 500 in
  let jane := mkBankAccount SavingsAccount "SV001" "Jane Smith" 1000 in
  let bank := addAccount jane (addAccount john empty_bank) in
  findAccount bank "CH001" = Some 0 /\
  findAccount bank "XX999" = None /\
  findAccount (perform_at 0 (Deposit 200) bank) "CH001" = Some 0 /\
  deref (perform_at 0 (Deposit 200) bank) 0 = Some (set_balance john 700).
Proof.
  intros john jane bank.
  destruct (findAccount_first_and_aliased bank "CH001") as [_ [_ Halias]].
  destruct (Halias 0 (Deposit 200) eq_refl) as [Hfind [_ [Hderef _]]].
  destruct (findAccount_first_and_aliased bank "XX999") as [_ [Hnone _]].
  split; [reflexivity|]. split; [|split; [exact Hfind|exact Hderef]].
  apply Hnone. intros a Ha.
  apply elem_of_cons in Ha as [->|Ha]; [discriminate|].
  apply elem_of_cons in Ha as [->|Ha]; [discriminate|].
  inversion Ha.
Defined.

Lemma ledger_frame_witness :
  let john := mkBankAccount CheckingAccount "CH001" "John Doe" 650 in
  let jane := mkBankAccount SavingsAccount "SV001" "Jane Smith" 1000 in
  let bank := addAccount john empty_bank in
  deref (addAccount jane bank) 0 = Some john /\
  deref (addAccount jane bank) 1 = Some jane /\
  accounts (processMonthlyUpdates (addAccount jane bank))
  = [set_balance john 640; set_balance jane 1050].
Proof.
  intros john jane bank.
  destruct (ledger_frame bank) as [Hadd _].
  destruct (Hadd jane) as [_ [Hkeep [Hlast _]]].
  destruct (ledger_frame (addAccount jane bank)) as [_ [[Hall _] _]].
  split; [now apply Hkeep|]. split; [exact Hlast|exact Hall].
Defined.

(** * More about doubles: NaN, and differences that are numbers *)

Module DoubleNaN.
Import DoubleClass DoubleOrder DoubleSign DoubleSub DoubleNumber DoubleFacts.
Local Open Scope float_scope.

Lemma nan_spec (x : float) : is_nan x = true -> Prim2SF x = S754_nan.
Proof.
  rewrite is_nan_spec, negb_true_iff. now destruct (Prim2SF x).
Qed.

Lemma leb_nan_l (x y : float) : is_nan x = true -> (x <=? y) = false.
Proof. intros H%nan_spec. now rewrite leb_spec, H. Qed.

Lemma ltb_nan_l (x y : float) : is_nan x = true -> (x <? y) = false.
Proof. intros H%nan_spec. now rewrite ltb_spec, H. Qed.

Lemma ltb_nan_r (x y : float) : is_nan y = true -> (x <? y) = false.
Proof.
  intros H%nan_spec. rewrite ltb_spec, H. now destruct (Prim2SF x).
Qed.

Lemma leb_nan_r (x y : float) : is_nan y = true -> (x <=? y) = false.
Proof.
  intros H%nan_spec. rewrite leb_spec, H. now destruct (Prim2SF x).
Qed.

Lemma add_nan_l (x y : float) : is_nan x = true -> is_nan (x + y) = true.
Proof.
  intros H%nan_spec. now rewrite is_nan_spec, add_spec, H.
Qed.

Lemma add_nan_r (x y : float) : is_nan y = true -> is_nan (x + y) = true.
Proof.
  intros H%nan_spec. rewrite is_nan_spec, add_spec, H.
  now destruct (Prim2SF x).
Qed.

Lemma sub_nan_l (x y : float) : is_nan x = true -> is_nan (x - y) = true.
Proof.
  intros H%nan_spec. now rewrite is_nan_spec, sub_spec, H.
Qed.

Lemma sub_nan_r (x y : float) : is_nan y = true -> is_nan (x - y) = true.
Proof.
  intros H%nan_spec. rewrite is_nan_spec, sub_spec, H.
  now destruct (Prim2SF x).
Qed.

Lemma mul_nan_l (x y : float) : is_nan x = true -> is_nan (x * y) = true.
Proof.
  intros H%nan_spec. now rewrite is_nan_spec, mul_spec, H.
Qed.

Lemma leb_number_r (x y : float) : (x <=? y) = true -> is_nan y = false.
Proof.
  rewrite is_nan_spec, leb_spec. unfold SFleb.
  destruct (Prim2SF x), (Prim2SF y); simpl; congruence.
Qed.

(** A number minus a finite number is a number. *)
Lemma SFsub_number (x : spec_float) (s : bool) (m : positive) (e : Z) :
  is_number x = true -> is_number (SF64sub x (S754_finite s m e)) = true.
Proof.
  destruct x as [sx|sx| |sx mx ex]; try (simpl; congruence). intros _.
  apply binary_normalize_number.
Qed.

Lemma sub_number (x y : float) (s : bool) (m : positive) (e : Z) :
  Prim2SF y = S754_finite s m e ->
  is_nan x = false -> is_nan (x - y) = false.
Proof.
  rewrite !is_nan_spec, sub_spec, !negb_false_iff. intros ->.
  apply SFsub_number.
Qed.

(** What is at least a positive number is not negative. *)
Lemma leb_positive_not_negative (y x : float) :
  (y <=? 0) = false -> (y <=? x) = true -> (x <? 0) = false.
Proof.
  rewrite leb_zero, ltb_zero, leb_spec, !negb_false_iff. unfold SFleb.
  destruct (Prim2SF y) as [sy|sy| |sy my ey], (Prim2SF x) as [sx|sx| |sx mx ex];
    simpl; try congruence;
    try (destruct sy; simpl; congruence);
    try (destruct sx; simpl; congruence);
    destruct sy, sx; simpl; congruence.
Qed.

End DoubleNaN.

(** * Further properties of the accounts *)

Import DoubleNaN.

(** X1: an account made by the Savings constructor never has a balance
    below zero, whatever deposits, withdrawals and monthly updates follow:
    the comparison [balance < 0] is false, and as long as the balance is a
    number, [0 <= balance] holds. *)
Theorem savings_account_invariant (a : BankAccount) :
  reachable a -> dynamic_type a = SavingsAccount ->
  ~ (balance a < 0)%float /\
  (is_nan (balance a) = false -> (0 <= balance a)%float).
Proof.
  intros Hr Hs. pose proof (savings_balance_never_negative a Hr Hs) as H.
  unfold_order. split; [congruence|]. intros Hn.
  now apply ltb_false_leb.
Qed.

Lemma savings_account_invariant_witness :
  let jane := mkBankAccount SavingsAccount "SV001" "Jane Smith" 1000 in
  (0 <= balance (perform ApplyMonthlyFee (perform (Withdraw 250) jane)))%float.
Proof.
  intros jane.
  apply (savings_account_invariant
           (perform ApplyMonthlyFee (perform (Withdraw 250) jane)));
    [|reflexivity|reflexivity].
  do 2 apply reachable_perform.
  now apply (reachable_new SavingsAccount "SV001" "Jane Smith" 1000).
Defined.

(** X2: a call that does not go through changes nothing.  [deposit] and
    [withdraw] throw only their own exception, and only for an amount
    [<= 0]; when [deposit] does not return, or [withdraw] does not return
    true, the account is left exactly as it was, whatever its class and
    whatever the amount; [applyMonthlyFee] never throws. *)
Theorem failed_call_changes_nothing (a : BankAccount) (amount : float) :
  (forall e, fst (deposit amount a) = Throws e ->
             e = InvalidDeposit /\ (amount <= 0)%float) /\
  (forall e, fst (withdraw amount a) = Throws e ->
             e = InvalidWithdrawal /\ (amount <= 0)%float) /\
  (fst (deposit amount a) <> Returns tt -> snd (deposit amount a) = a) /\
  (fst (withdraw amount a) <> Returns true -> snd (withdraw amount a) = a) /\
  fst (applyMonthlyFee a) = Returns tt.
Proof.
  unfold_methods. unfold_order.
  destruct (dynamic_type a), (amount <=? 0)%float; simpl;
    repeat match goal with
           | |- context [if ?c then _ else _] => destruct c; simpl
           end;
    repeat split; try congruence; try (intros e [= <-]; auto).
Qed.

Lemma failed_call_changes_nothing_witness :
  let jane := mkBankAccount SavingsAccount "SV001" "Jane Smith" 1000 in
  snd (withdraw 1200 jane) = jane /\ snd (deposit (-5) jane) = jane.
Proof.
  intros jane. split.
  - apply (failed_call_changes_nothing jane 1200). discriminate.
  - apply (failed_call_changes_nothing jane (-5)). discriminate.
Defined.

(** X3: a NaN passes every check on an amount, since [NaN <= 0] and
    [NaN < x] are false.  [deposit] of a NaN returns, [withdraw] of a NaN
    returns true on either class, and both leave a NaN balance; both
    constructors, the Savings one with its minimum included, accept a NaN
    as the initial balance. *)
Theorem nan_amount_accepted (amount : float) :
  is_nan amount = true ->
  (forall a,
     deposit amount a = (Returns tt, set_balance a (balance a + amount)%float) /\
     is_nan (balance a + amount) = true) /\
  (forall a,
     withdraw amount a = (Returns true, set_balance a (balance a - amount)%float) /\
     is_nan (balance a - amount) = true) /\
  (forall cls number name,
     make_account cls number name amount
     = Returns (mkBankAccount cls number name amount)).
Proof.
  intros Hn. split; [|split].
  - intros a. unfold_methods. rewrite (leb_nan_l amount 0 Hn).
    auto using add_nan_r.
  - intros a. unfold_methods. rewrite (leb_nan_l amount 0 Hn).
    rewrite !(ltb_nan_r _ amount Hn).
    split; [now destruct (dynamic_type a)|auto using sub_nan_r].
  - intros cls number name.
    destruct cls;
      unfold make_account, CheckingAccount_new, SavingsAccount_new, BankAccount_new;
      now rewrite ?(ltb_nan_l amount _ Hn).
Qed.

Lemma nan_amount_accepted_witness :
  let john := mkBankAccount CheckingAccount "CH001" "John Doe" 500 in
  deposit nan john = (Returns tt, set_balance john nan) /\
  SavingsAccount_new "SV001" "Jane Smith" nan
  = Returns (mkBankAccount SavingsAccount "SV001" "Jane Smith" nan).
Proof.
  intros john.
  destruct (nan_amount_accepted nan eq_refl) as [Hdeposit [_ Hnew]].
  split.
  - apply (Hdeposit john).
  - apply (Hnew SavingsAccount).
Defined.

(** X4: a NaN balance stays.  Once the balance of an account is a NaN, it
    is a NaN after every deposit, withdrawal and monthly update, and every
    withdrawal of a positive amount returns true: the check against the
    balance (and the overdraft limit) no longer refuses anything. *)
Theorem nan_balance_absorbing (a : BankAccount) :
  is_nan (balance a) = true ->
  (forall op, is_nan (balance (perform op a)) = true) /\
  (forall amount, (0 < amount)%float -> fst (withdraw amount a) = Returns true).
Proof.
  intros Hn. split.
  - intros [amount|amount|]; unfold perform; unfold_methods.
    + destruct (amount <=? 0)%float; simpl; auto using add_nan_l.
    + destruct (dynamic_type a), (amount <=? 0)%float; simpl; auto;
        rewrite ?(ltb_nan_l (balance a) amount Hn),
          ?(ltb_nan_l _ amount (add_nan_l _ OVERDRAFT_LIMIT Hn));
        simpl; auto using sub_nan_l.
    + destruct (dynamic_type a); simpl; rewrite ?(leb_nan_r MONTHLY_FEE _ Hn);
        simpl; auto using add_nan_l.
  - intros amount Hpos%positive_amount. unfold_methods. rewrite Hpos.
    destruct (dynamic_type a); simpl;
      now rewrite ?(ltb_nan_l (balance a) amount Hn),
        ?(ltb_nan_l _ amount (add_nan_l _ OVERDRAFT_LIMIT Hn)).
Qed.

Lemma nan_balance_absorbing_witness :
  let jane := mkBankAccount SavingsAccount "SV001" "Jane Smith" nan in
  is_nan (balance (perform (Deposit 100) jane)) = true /\
  fst (withdraw 1000000 jane) = Returns true.
Proof.
  intros jane.
  destruct (nan_balance_absorbing jane eq_refl) as [Hstays Hwithdraw].
  split.
  - apply (Hstays (Deposit 100)).
  - apply (Hwithdraw 1000000%float). reflexivity.
Defined.

(** X5: the monthly fee never overdraws a Checking account.  When the fee
    is charged the balance left is [>= 0]; a balance that is not negative
    is not negative after the update; and an account that is overdrawn
    (balance [< 0]) is not charged. *)
Theorem checking_fee_never_overdraws (a : BankAccount) :
  dynamic_type a = CheckingAccount ->
  ((balance a >= MONTHLY_FEE)%float ->
     (0 <= balance (snd (applyMonthlyFee a)))%float) /\
  (~ (balance a < 0)%float -> ~ (balance (snd (applyMonthlyFee a)) < 0)%float) /\
  ((balance a < 0)%float -> applyMonthlyFee a = (Returns tt, a)).
Proof.
  intros Hc. unfold_methods. unfold_order. rewrite Hc.
  assert ((MONTHLY_FEE <=? balance a)%float = true ->
          (balance a - MONTHLY_FEE <? 0)%float = false) as Hsub.
  { intros Hge. apply sub_not_negative; [|reflexivity|now apply leb_swap].
    now apply (leb_positive_not_negative MONTHLY_FEE). }
  split; [|split].
  - intros Hge. rewrite Hge. simpl.
    apply ltb_false_leb; [|reflexivity|auto].
    apply (sub_number _ MONTHLY_FEE false 5629499534213120 (-49));
      [reflexivity|]. eauto using leb_number_r.
  - intros H0. destruct (MONTHLY_FEE <=? balance a)%float eqn:Hge; simpl;
      [|assumption]. rewrite (Hsub eq_refl). discriminate.
  - intros Hneg. destruct (MONTHLY_FEE <=? balance a)%float eqn:Hge;
      [|reflexivity].
    apply (leb_positive_not_negative MONTHLY_FEE) in Hge; [|reflexivity].
    congruence.
Qed.

Lemma checking_fee_never_overdraws_witness :
  let exact := mkBankAccount CheckingAccount "CH001" "John Doe" 10 in
  let overdrawn := mkBankAccount CheckingAccount "CH002" "John Doe" (-50) in
  (0 <= balance (snd (applyMonthlyFee exact)))%float /\
  applyMonthlyFee overdrawn = (Returns tt, overdrawn).
Proof.
  intros exact overdrawn. split.
  - apply (checking_fee_never_overdraws exact); reflexivity.
  - apply (checking_fee_never_overdraws overdrawn); reflexivity.
Defined.

(** * Further properties of the bank *)

Section MoreLedger.

Implicit Types (bank : Bank) (l : list BankAccount) (number : string).
Implicit Types (slot p q i j : nat) (a b account : BankAccount).

Lemma findAccount_from_app slot l l' number :
  findAccount_from slot (l ++ l') number =
    match findAccount_from slot l number with
    | Some p => Some p
    | None => findAccount_from (slot + length l) l' number
    end.
Proof.
  revert slot. induction l as [|a l IH]; intros slot; simpl.
  - now rewrite Nat.add_0_r.
  - destruct (String.eqb _ _); [reflexivity|].
    rewrite IH. now replace (S slot + length l) with (slot + S (length l)) by lia.
Qed.

(** Banks whose accounts have the same numbers and holders, slot by slot,
    answer [findAccount] alike. *)
Lemma findAccount_identity bank bank' number :
  identity <$> accounts bank' = identity <$> accounts bank ->
  findAccount bank' number = findAccount bank number.
Proof.
  intros H. apply findAccount_from_numbers. now apply identity_numbers.
Qed.

Lemma deref_identity bank bank' p :
  identity <$> accounts bank' = identity <$> accounts bank ->
  identity <$> deref bank' p = identity <$> deref bank p.
Proof.
  intros H. unfold deref. rewrite <- !list_lookup_fmap. now rewrite H.
Qed.

Lemma processMonthlyUpdates_identity bank :
  identity <$> accounts (processMonthlyUpdates bank) = identity <$> accounts bank.
Proof.
  unfold processMonthlyUpdates. simpl. rewrite monthly_loop_all.
  rewrite <- list_fmap_compose. apply list_fmap_ext.
  intros i a _. apply perform_identity.
Qed.

Lemma found_in_bounds bank number p :
  findAccount bank number = Some p -> p < length (accounts bank).
Proof.
  intros [i [-> [[a [Ha _]] _]]]%findAccount_from_Some.
  now apply lookup_lt_Some in Ha.
Qed.

Lemma bank_step_found bank bank' number p :
  bank_step bank bank' ->
  findAccount bank number = Some p ->
  findAccount bank' number = Some p /\
  identity <$> deref bank' p = identity <$> deref bank p.
Proof.
  intros [account bank0 _|q op bank0 _|bank0] Hp.
  - unfold findAccount, deref, addAccount in *. simpl.
    rewrite findAccount_from_app, Hp. split; [reflexivity|].
    apply found_in_bounds in Hp. now rewrite lookup_app_l.
  - pose proof (identity_alter op q (accounts bank0)) as H.
    split; [|now apply deref_identity].
    now rewrite (findAccount_identity bank0 (perform_at q op bank0) number H).
  - pose proof (processMonthlyUpdates_identity bank0) as H.
    split; [|now apply deref_identity].
    now rewrite (findAccount_identity bank0 (processMonthlyUpdates bank0) number H).
Qed.

Lemma bank_step_length bank bank' :
  bank_step bank bank' -> length (accounts bank) <= length (accounts bank').
Proof.
  intros [account bank0 _|q op bank0 _|bank0]; simpl.
  - rewrite length_app. lia.
  - now rewrite length_alter.
  - now rewrite monthly_loop_all, length_fmap.
Qed.

Lemma bank_step_reachable bank bank' :
  bank_step bank bank' ->
  Forall reachable (accounts bank) -> Forall reachable (accounts bank').
Proof.
  intros [account bank0 Hr|q op bank0 _|bank0] H; simpl.
  - apply Forall_app. split; [assumption|]. now constructor.
  - apply Forall_alter; [assumption|]. intros a _ Ha.
    now apply reachable_perform.
  - rewrite monthly_loop_all. apply Forall_fmap.
    eapply Forall_impl; [eassumption|]. intros a Ha.
    now apply (reachable_perform ApplyMonthlyFee).
Qed.

End MoreLedger.

(** X6: [findAccount] after [addAccount].  A number the bank already has
    keeps the pointer it had, so an account added under a number in use is
    never found; a number the bank did not have is found in the new, last
    slot exactly when it is the number of the account added, and the
    pointer then leads to that account. *)
Theorem findAccount_after_addAccount (bank : Bank) (account : BankAccount)
    (number : string) :
  findAccount (addAccount account bank) number =
    match findAccount bank number with
    | Some p => Some p
    | None => if String.eqb (accountNumber account) number
              then Some (length (accounts bank)) else None
    end /\
  (findAccount bank (accountNumber account) = None ->
   exists p, findAccount (addAccount account bank) (accountNumber account) = Some p /\
             deref (addAccount account bank) p = Some account).
Proof.
  unfold findAccount, addAccount, deref. simpl accounts. split.
  - rewrite findAccount_from_app. simpl. unfold getAccountNumber.
    now destruct (String.eqb _ _).
  - intros Hnone. exists (length (accounts bank)).
    rewrite findAccount_from_app, Hnone. simpl. unfold getAccountNumber.
    rewrite String.eqb_refl. split; [reflexivity|].
    rewrite lookup_app_r by lia. now rewrite Nat.sub_diag.
Qed.

Lemma findAccount_after_addAccount_witness :
  let john := mkBankAccount CheckingAccount "CH001" "John Doe" 500 in
  let twin := mkBankAccount SavingsAccount "CH001" "Jane Smith" 1000 in
  let bank := addAccount john empty_bank in
  (exists p, findAccount bank "CH001" = Some p /\ deref bank p = Some john) /\
  findAccount (addAccount twin bank) "CH001" = Some 0.
Proof.
  intros john twin bank. split.
  - apply (findAccount_after_addAccount empty_bank john "CH001"). reflexivity.
  - apply (findAccount_after_addAccount bank twin "CH001").
Defined.

(** X7: what was found stays found.  Whatever calls are made on the bank
    afterwards (accounts added, member functions called through pointers,
    monthly updates), [findAccount] keeps returning the same pointer for
    the number, the account it points to keeps its number and holder, and
    the bank never has fewer accounts. *)
Theorem found_account_stays_found (bank bank' : Bank) (number : string) (p : nat) :
  evolves bank bank' ->
  findAccount bank number = Some p ->
  findAccount bank' number = Some p /\
  identity <$> deref bank' p = identity <$> deref bank p /\
  length (accounts bank) <= length (accounts bank').
Proof.
  intros Hev Hp. induction Hev as [|bank' bank'' _ [IH1 [IH2 IH3]] Hstep].
  - auto.
  - destruct (bank_step_found bank' bank'' number p Hstep IH1) as [H1 H2].
    pose proof (bank_step_length bank' bank'' Hstep).
    split; [assumption|]. split; [congruence|lia].
Qed.

Lemma found_account_stays_found_witness :
  let john := mkBankAccount CheckingAccount "CH001" "John Doe" 500 in
  let jane := mkBankAccount SavingsAccount "SV001" "Jane Smith" 1000 in
  let bank := addAccount john empty_bank in
  let bank' := processMonthlyUpdates
                 (perform_at 0 (Withdraw 50) (addAccount jane bank)) in
  findAccount bank' "CH001" = Some 0.
Proof.
  intros john jane bank bank'.
  apply (found_account_stays_found bank bank' "CH001" 0); [|reflexivity].
  eapply evolves_step; [eapply evolves_step; [eapply evolves_step|]|].
  - apply evolves_refl.
  - apply (step_addAccount jane).
    now apply (reachable_new SavingsAccount "SV001" "Jane Smith" 1000).
  - apply (step_perform_at 0 (Withdraw 50)). now exists john.
  - apply step_processMonthlyUpdates.
Defined.

(** X8: in a bank that started empty, whatever calls were made on it, no
    Savings account has a balance below zero. *)
Theorem bank_savings_never_negative (bank : Bank) (p : nat) (a : BankAccount) :
  evolves empty_bank bank ->
  deref bank p = Some a -> dynamic_type a = SavingsAccount ->
  ~ (balance a < 0)%float.
Proof.
  intros Hev.
  assert (Forall reachable (accounts bank)) as Hall.
  { induction Hev as [|bank' bank'' _ IH Hstep]; [constructor|].
    now apply (bank_step_reachable bank' bank''). }
  intros Ha Hs. rewrite Forall_lookup in Hall.
  pose proof (savings_balance_never_negative a (Hall p a Ha) Hs) as H.
  unfold Double.lt. congruence.
Qed.

Lemma bank_savings_never_negative_witness :
  let jane := mkBankAccount SavingsAccount "SV001" "Jane Smith" 1000 in
  let bank := perform_at 0 (Withdraw 1000) (addAccount jane empty_bank) in
  ~ (balance (set_balance jane 0) < 0)%float.
Proof.
  intros jane bank.
  apply (bank_savings_never_negative bank 0 (set_balance jane 0));
    [|reflexivity|reflexivity].
  eapply evolves_step; [eapply evolves_step|].
  - apply evolves_refl.
  - apply (step_addAccount jane).
    now apply (reachable_new SavingsAccount "SV001" "Jane Smith" 1000).
  - apply (step_perform_at 0 (Withdraw 1000)). now exists jane.
Defined.



(** X10: the monthly updates treat every account on its own: processing a
    bank to which an account was added gives the processed bank with the
    processed account added, and processing changes neither the answers of
    [findAccount] nor the number of accounts. *)
Theorem processMonthlyUpdates_by_account (bank : Bank) (account : BankAccount) :
  processMonthlyUpdates (addAccount account bank)
  = addAccount (perform ApplyMonthlyFee account) (processMonthlyUpdates bank) /\
  (forall number,
     findAccount (processMonthlyUpdates bank) number = findAccount bank number) /\
  processMonthlyUpdates empty_bank = empty_bank.
Proof.
  split; [|split].
  - unfold processMonthlyUpdates, addAccount. simpl.
    now rewrite !monthly_loop_all, fmap_app.
  - intros number. apply findAccount_identity, processMonthlyUpdates_identity.
  - reflexivity.
Qed.

(** X11: [displayAllAccounts] on a bank to which an account was added
    writes what it wrote before, then the lines of the new account, then
    the separator line; on an empty bank it writes nothing. *)
Theorem displayAllAccounts_addAccount (bank : Bank) (account : BankAccount) :
  displayAllAccounts (addAccount account bank)
  = displayAllAccounts bank ++ displayAccountInfo account ++ separator /\
  displayAllAccounts empty_bank = [].
Proof.
  unfold displayAllAccounts, addAccount. simpl accounts.
  split; [|reflexivity]. rewrite display_loop_app. reflexivity.
Qed.

(** X12: every account of the bank can be looked up by its number: the
    pointer found is to its slot or to an earlier one with the same number,
    and to its own slot when the numbers in the bank are all different. *)
Theorem every_account_found (bank : Bank) (i : nat) (a : BankAccount) :
  deref bank i = Some a ->
  (exists p, findAccount bank (accountNumber a) = Some p /\ p <= i) /\
  (NoDup (accountNumber <$> accounts bank) ->
   findAccount bank (accountNumber a) = Some i).
Proof.
  unfold deref, findAccount. intros Ha.
  assert (exists p, findAccount_from 0 (accounts bank) (accountNumber a) = Some p
                    /\ p <= i) as [p [Hp Hle]].
  { destruct (findAccount_from 0 (accounts bank) (accountNumber a)) as [p|] eqn:E.
    - exists p. split; [reflexivity|].
      apply findAccount_from_Some in E as [j [-> [_ Hfirst]]]. simpl.
      destruct (le_lt_dec j i) as [|Hlt]; [assumption|].
      now destruct (Hfirst i a Hlt Ha).
    - rewrite findAccount_from_None in E.
      destruct (E a); [|reflexivity]. now apply list_elem_of_lookup_2 in Ha. }
  split; [now exists p|]. intros Hnodup. rewrite Hp. f_equal.
  apply findAccount_from_Some in Hp as [j [-> [[b [Hb Hnum]] _]]]. simpl in *.
  apply (NoDup_lookup _ j i (accountNumber a) Hnodup);
    rewrite list_lookup_fmap.
  - rewrite Hb. simpl. now rewrite Hnum.
  - now rewrite Ha.
Qed.

Lemma every_account_found_witness :
  let john := mkBankAccount CheckingAccount "CH001" "John Doe" 500 in
  let jane := mkBankAccount SavingsAccount "SV001" "Jane Smith" 1000 in
  let bank := addAccount jane (addAccount john empty_bank) in
  findAccount bank "SV001" = Some 1.
Proof.
  intros john jane bank.
  apply (every_account_found bank 1 jane); [reflexivity|].
  apply NoDup_cons. split; [|apply NoDup_singleton].
  intros H. apply list_elem_of_singleton in H. discriminate H.
Defined.
